(** * py-avl-tree: a shallow embedding of [avl_tree.py]

    The Python module implements an AVL tree with a null-object sentinel
    ([EMPTY_NODE], the only instance of [_EmptyAVLNode]) and heap nodes
    ([_AVLNode]) that cache the height of their subtree.  Entries are
    modelled as integers with Python's [<], [>] and [==]; an [_AVLNode]
    holding an integer is always truthy ([entry is not None]).

    Exceptions are values: a method returns [Ok v] or [Raise e].  Methods
    that assign to the fields of their receiver before they may raise
    ([insert], [delete], [clear]) return an [outcome], which also records
    the state in which a raise leaves the receiver object.  Ownership of
    nodes is tree shaped (every node is referenced by its parent or by the
    tree handle only), so an object and the subtree below it coincide. *)

From Stdlib Require Import ZArith List Bool Lia String Sorted Permutation.
From Equations Require Import Equations.
Import ListNotations.
Local Open Scope Z_scope.

(** ** Exceptions and results *)

Inductive exn : Type :=
| KeyError
| AttributeError.

Inductive result (A : Type) : Type :=
| Ok (a : A)
| Raise (e : exn).
Arguments Ok {A} a.
Arguments Raise {A} e.

(** ** Tree positions *)

Inductive node : Type :=
| EMPTY_NODE
| AVLNode (entry : Z) (left right : node) (height : Z).

(** What a call on a receiver object leaves behind: the value it returned,
    or the exception together with the receiver as it stands at the raise. *)
Inductive outcome : Type :=
| Return (v : node)
| Raised (e : exn) (self' : node).

Module Node.

(** [height] is an attribute of both classes: 0 on the sentinel, the
    cached field on a node. *)
Definition height (self : node) : Z :=
  match self with
  | EMPTY_NODE => 0
  | AVLNode _ _ _ h => h
  end.

(** [entry], [left] and [right] exist on [_AVLNode] only. *)
Definition entry (self : node) : result Z :=
  match self with
  | EMPTY_NODE => Raise AttributeError
  | AVLNode x _ _ _ => Ok x
  end.

Definition __bool__ (self : node) : bool :=
  match self with
  | EMPTY_NODE => false
  | AVLNode _ _ _ _ => true
  end.

Fixpoint __len__ (self : node) : Z :=
  match self with
  | EMPTY_NODE => 0
  | AVLNode _ l r _ => 1 + __len__ l + __len__ r
  end.

Definition balance_factor (self : node) : Z :=
  match self with
  | EMPTY_NODE => 0
  | AVLNode _ l r _ => height l - height r
  end.

(** [is_leaf] on a node with children [l] and [r]. *)
Definition is_leaf (l r : node) : bool :=
  negb (__bool__ l || __bool__ r).

(** [_update_height] on a node with the given entry and children: the
    cached height is overwritten, so the old one is no input. *)
Definition _update_height (x : Z) (l r : node) : node :=
  AVLNode x l r (1 + Z.max (height l) (height r)).

(** [right_tree.left] raises before any field is assigned when the right
    child is the sentinel. *)
Definition _rotate_left (self : node) : result node :=
  match self with
  | EMPTY_NODE => Raise AttributeError
  | AVLNode x l right_tree _ =>
      match right_tree with
      | EMPTY_NODE => Raise AttributeError
      | AVLNode y rl rr _ =>
          let self' := _update_height x l rl in
          Ok (_update_height y self' rr)
      end
  end.

Definition _rotate_right (self : node) : result node :=
  match self with
  | EMPTY_NODE => Raise AttributeError
  | AVLNode x left_tree r _ =>
      match left_tree with
      | EMPTY_NODE => Raise AttributeError
      | AVLNode y ll lr _ =>
          let self' := _update_height x lr r in
          Ok (_update_height y ll self')
      end
  end.

Definition _rotate_left_right (self : node) : result node :=
  match self with
  | EMPTY_NODE => Raise AttributeError
  | AVLNode x l r h =>
      match _rotate_left l with
      | Ok l' => _rotate_right (AVLNode x l' r h)
      | Raise e => Raise e
      end
  end.

Definition _rotate_right_left (self : node) : result node :=
  match self with
  | EMPTY_NODE => Raise AttributeError
  | AVLNode x l r h =>
      match _rotate_right r with
      | Ok r' => _rotate_left (AVLNode x l r' h)
      | Raise e => Raise e
      end
  end.

Definition _balance_tree_if_unbalanced (self : node) : result node :=
  match self with
  | EMPTY_NODE => Raise AttributeError
  | AVLNode _ l r _ =>
      if (balance_factor self =? 2) && (balance_factor l =? -1) then
        _rotate_left_right self
      else if (balance_factor self =? -2) && (balance_factor r =? 1) then
        _rotate_right_left self
      else if balance_factor self =? -2 then
        _rotate_left self
      else if balance_factor self =? 2 then
        _rotate_right self
      else Ok self
  end.

(** [_balanced_tree]: the height is refreshed first, so a raise in the
    rotation leaves the receiver with the refreshed height. *)
Definition _balanced_tree (self : node) : outcome :=
  match self with
  | EMPTY_NODE => Raised AttributeError EMPTY_NODE
  | AVLNode x l r _ =>
      let self' := _update_height x l r in
      match _balance_tree_if_unbalanced self' with
      | Ok t => Return t
      | Raise e => Raised e self'
      end
  end.

Fixpoint insert (self : node) (entry : Z) : outcome :=
  match self with
  | EMPTY_NODE => Return (AVLNode entry EMPTY_NODE EMPTY_NODE 1)
  | AVLNode x l r h =>
      if entry >? x then
        match insert r entry with
        | Return r' => _balanced_tree (AVLNode x l r' h)
        | Raised e r' => Raised e (AVLNode x l r' h)
        end
      else if entry <? x then
        match insert l entry with
        | Return l' => _balanced_tree (AVLNode x l' r h)
        | Raised e l' => Raised e (AVLNode x l' r h)
        end
      else _balanced_tree self
  end.

(** The [while] loops of [max] and [min], started below the receiver. *)
Fixpoint max_loop (max_entry : Z) (right_node : node) : Z :=
  match right_node with
  | EMPTY_NODE => max_entry
  | AVLNode x _ r _ => max_loop x r
  end.

Definition max (self : node) : result Z :=
  match self with
  | EMPTY_NODE => Raise AttributeError
  | AVLNode x _ r _ => Ok (max_loop x r)
  end.

Fixpoint min_loop (min_entry : Z) (left_node : node) : Z :=
  match left_node with
  | EMPTY_NODE => min_entry
  | AVLNode x l _ _ => min_loop x l
  end.

Definition min (self : node) : result Z :=
  match self with
  | EMPTY_NODE => Raise AttributeError
  | AVLNode x l _ _ => Ok (min_loop x l)
  end.

Fixpoint delete (self : node) (entry : Z) : outcome :=
  match self with
  | EMPTY_NODE => Raised KeyError EMPTY_NODE
  | AVLNode x l r h =>
      if entry >? x then
        match delete r entry with
        | Return r' => _balanced_tree (AVLNode x l r' h)
        | Raised e r' => Raised e (AVLNode x l r' h)
        end
      else if entry <? x then
        match delete l entry with
        | Return l' => _balanced_tree (AVLNode x l' r h)
        | Raised e l' => Raised e (AVLNode x l' r h)
        end
      else if is_leaf l r then Return EMPTY_NODE
      else if __bool__ l then
        match max l with
        | Raise e => Raised e self
        | Ok new_entry =>
            match delete l new_entry with
            | Return l' => _balanced_tree (AVLNode new_entry l' r h)
            | Raised e l' => Raised e (AVLNode new_entry l' r h)
            end
        end
      else Return r
  end.

(** [clear]: the sentinel has no such method.  When the call on the left
    child returns, [self.left] has been assigned before the right child
    is visited. *)
Fixpoint clear (self : node) : outcome :=
  match self with
  | EMPTY_NODE => Raised AttributeError EMPTY_NODE
  | AVLNode x l r h =>
      if is_leaf l r then Return EMPTY_NODE
      else
        match clear l with
        | Raised e l' => Raised e (AVLNode x l' r h)
        | Return l' =>
            match clear r with
            | Raised e r' => Raised e (AVLNode x l' r' h)
            | Return _ => Return EMPTY_NODE
            end
        end
  end.

(** [__eq__]: the sentinel tests the class of [other]; a node reads
    [other.entry] first.  [a and b and c] evaluates left to right and
    stops at the first falsy operand. *)
Fixpoint __eq__ (self other : node) : result bool :=
  match self with
  | EMPTY_NODE => Ok (negb (__bool__ other))
  | AVLNode x l r _ =>
      match other with
      | EMPTY_NODE => Raise AttributeError
      | AVLNode y l' r' _ =>
          if x =? y then
            match __eq__ l l' with
            | Ok true => __eq__ r r'
            | Ok false => Ok false
            | Raise e => Raise e
            end
          else Ok false
      end
  end.

Fixpoint pred (self pred_ : node) (entry_ : Z) : result Z :=
  match self with
  | EMPTY_NODE => Raise KeyError
  | AVLNode x l r _ =>
      if entry_ >? x then pred r self entry_
      else if entry_ <? x then pred l pred_ entry_
      else if __bool__ l then max l
      else if __bool__ pred_ then entry pred_
      else Raise KeyError
  end.

Fixpoint succ (self succ_ : node) (entry_ : Z) : result Z :=
  match self with
  | EMPTY_NODE => Raise KeyError
  | AVLNode x l r _ =>
      if entry_ >? x then succ r succ_ entry_
      else if entry_ <? x then succ l self entry_
      else if __bool__ r then min r
      else if __bool__ succ_ then entry succ_
      else Raise KeyError
  end.

End Node.

(** ** The tree handle *)

Module AVLTree.

Record t : Type := mk { root : node }.

(** A public call gives a value or an exception, and leaves the handle
    in some state. *)
Definition call (A : Type) : Type := (result A * t)%type.

(** [self.root = self.root.m(...)]: the assignment happens only when the
    call returns; after a raise the handle still refers to the old root
    object, in the state the call left it in. *)
Definition assign_root (o : outcome) : call unit :=
  match o with
  | Return n => (Ok tt, mk n)
  | Raised e n => (Raise e, mk n)
  end.

Definition insert (self : t) (entry : Z) : call unit :=
  assign_root (Node.insert (root self) entry).

Definition delete (self : t) (entry : Z) : call unit :=
  assign_root (Node.delete (root self) entry).

Definition clear (self : t) : call unit :=
  assign_root (Node.clear (root self)).

Definition height (self : t) : Z := Node.height (root self).

Definition __len__ (self : t) : Z := Node.__len__ (root self).

Definition __bool__ (self : t) : bool := Node.__bool__ (root self).

Fixpoint _search_loop (root : node) (entry : Z) : result node :=
  match root with
  | EMPTY_NODE => Raise KeyError
  | AVLNode x l r _ =>
      if entry >? x then _search_loop r entry
      else if entry <? x then _search_loop l entry
      else Ok root
  end.

Definition _search (self : t) (entry : Z) : result node :=
  _search_loop (root self) entry.

Definition search (self : t) (entry : Z) : result Z :=
  match _search self entry with
  | Ok n => Node.entry n
  | Raise e => Raise e
  end.

(** [__contains__] catches [KeyError] only. *)
Definition __contains__ (self : t) (entry : Z) : result bool :=
  match search self entry with
  | Ok _ => Ok true
  | Raise KeyError => Ok false
  | Raise e => Raise e
  end.

Definition pred (self : t) (entry : Z) : result Z :=
  Node.pred (root self) EMPTY_NODE entry.

Definition succ (self : t) (entry : Z) : result Z :=
  Node.succ (root self) EMPTY_NODE entry.

Definition max (self : t) : result Z := Node.max (root self).

Definition min (self : t) : result Z := Node.min (root self).

(** [other] is an [AVLTree]; the [isinstance] test passes. *)
Definition __eq__ (self other : t) : result bool :=
  if (height self =? height other) && (__len__ self =? __len__ other)
  then Node.__eq__ (root self) (root other)
  else Ok false.

(** Traversals are generators; a list is what consuming one yields. *)
Fixpoint _inorder (root : node) : list Z :=
  match root with
  | EMPTY_NODE => []
  | AVLNode x l r _ => _inorder l ++ x :: _inorder r
  end.

Fixpoint _preorder (root : node) : list Z :=
  match root with
  | EMPTY_NODE => []
  | AVLNode x l r _ => x :: _preorder l ++ _preorder r
  end.

Fixpoint _postorder (root : node) : list Z :=
  match root with
  | EMPTY_NODE => []
  | AVLNode x l r _ => _postorder l ++ _postorder r ++ [x]
  end.

Fixpoint size (n : node) : nat :=
  match n with
  | EMPTY_NODE => O
  | AVLNode _ l r _ => S (size l + size r)
  end.

(** What is left to do for the queue of [_bfs]: every queued position
    is popped once, and so is every position below it. *)
Fixpoint queue_work (q : list node) : nat :=
  match q with
  | [] => O
  | n :: q' => (S (2 * size n) + queue_work q')%nat
  end.

(** The [while q] loop of [_bfs] on the deque [q]. *)
Equations? _bfs_loop (q : list node) : list Z by wf (queue_work q) lt :=
  _bfs_loop [] := [];
  _bfs_loop (EMPTY_NODE :: q') := _bfs_loop q';
  _bfs_loop (AVLNode x l r _ :: q') := x :: _bfs_loop (q' ++ [l; r]).
Proof.
  clear _bfs_loop. induction q' as [|n q' IH]; cbn in *; lia.
Qed.

Definition _bfs (self : t) : list Z :=
  if Node.__bool__ (root self) then _bfs_loop [root self] else [].

Definition traverse (self : t) (order : string) : list Z :=
  if String.eqb order "preorder" then _preorder (root self)
  else if String.eqb order "postorder" then _postorder (root self)
  else if String.eqb order "bfs" then _bfs self
  else _inorder (root self).

(** The argument of the constructor: nothing, another tree, or an
    iterable of entries. *)
Inductive args : Type :=
| NoArgs
| FromTree (other : t)
| FromIterable (entries : list Z).

(** [for entry in args: self.insert(entry)] *)
Fixpoint insert_all (self : t) (entries : list Z) : call unit :=
  match entries with
  | [] => (Ok tt, self)
  | e :: rest =>
      match insert self e with
      | (Ok _, self') => insert_all self' rest
      | (Raise ex, self') => (Raise ex, self')
      end
  end.

(** [_init_tree]: integers always compare, so the [TypeError] handler
    is never entered; any other exception leaves the constructor. *)
Definition _init_tree (a : args) : call unit :=
  let self := mk EMPTY_NODE in
  match a with
  | NoArgs => (Ok tt, self)
  | FromTree other => insert_all self (traverse other "bfs")
  | FromIterable entries => insert_all self entries
  end.

(** [AVLTree(args)]: the new tree, unless the constructor raised. *)
Definition __init__ (a : args) : result t :=
  match _init_tree a with
  | (Ok _, self) => Ok self
  | (Raise e, _) => Raise e
  end.

End AVLTree.

(** ** Invariants *)

(** Heights are cached correctly and every node is balanced. *)
Fixpoint avl (n : node) : Prop :=
  match n with
  | EMPTY_NODE => True
  | AVLNode _ l r h =>
      avl l /\ avl r /\
      h = 1 + Z.max (Node.height l) (Node.height r) /\
      -1 <= Node.height l - Node.height r <= 1
  end.

(** Binary-search-tree order; the entries under a position are those of
    its in-order traversal. *)
Fixpoint bst (n : node) : Prop :=
  match n with
  | EMPTY_NODE => True
  | AVLNode x l r _ =>
      Forall (fun y => y < x) (AVLTree._inorder l) /\
      Forall (fun y => x < y) (AVLTree._inorder r) /\
      bst l /\ bst r
  end.

(** [position p n]: [p] is reachable from [n] through [left] and [right]. *)
Inductive position (p : node) : node -> Prop :=
| position_here : position p p
| position_left x l r h : position p l -> position p (AVLNode x l r h)
| position_right x l r h : position p r -> position p (AVLNode x l r h).

(** The tree that [AVLTree()] makes. *)
Definition empty_tree : AVLTree.t := AVLTree.mk EMPTY_NODE.

(** Trees built by public calls.  A constructor call that returns builds
    a tree; [insert] and [delete] lead from a built tree to the state they
    leave the handle in, whether they return or raise; [clear] leads to a
    built tree when it returns.  The state in which a [clear] that raises
    leaves the handle is not a built tree (see the section on clearing
    and the example [tree_2_1]). *)
Inductive built : AVLTree.t -> Prop :=
| built_init a t :
    AVLTree.__init__ a = Ok t -> built t
| built_insert t e res t' :
    built t -> AVLTree.insert t e = (res, t') -> built t'
| built_delete t e res t' :
    built t -> AVLTree.delete t e = (res, t') -> built t'
| built_clear t t' :
    built t -> AVLTree.clear t = (Ok tt, t') -> built t'.

(** Both invariants at the root of a tree. *)
Definition valid (t : AVLTree.t) : Prop :=
  avl (AVLTree.root t) /\ bst (AVLTree.root t).


(** The height and balance invariant, position by position. *)
Definition height_balanced (n : node) : Prop :=
  forall p x l r h,
    position p n -> p = AVLNode x l r h ->
    h = 1 + Z.max (Node.height l) (Node.height r) /\
    (Node.balance_factor p = -1 \/ Node.balance_factor p = 0 \/
     Node.balance_factor p = 1).



(** [clear] returns on the nodes below which every node has no child or
    two. *)
Fixpoint full (n : node) : bool :=
  match n with
  | EMPTY_NODE => false
  | AVLNode _ l r _ =>
      Node.is_leaf l r || (full l && full r)
  end.

(** *** Rotations carried out by an insertion *)

Inductive rotation : Type :=
| LeftRight
| RightLeft
| Left
| Right.

(** The branch that [_balance_tree_if_unbalanced] takes. *)
Definition rotation_chosen (self : node) : list rotation :=
  match self with
  | EMPTY_NODE => []
  | AVLNode _ l r _ =>
      if (Node.balance_factor self =? 2) && (Node.balance_factor l =? -1)
      then [LeftRight]
      else if (Node.balance_factor self =? -2) && (Node.balance_factor r =? 1)
      then [RightLeft]
      else if Node.balance_factor self =? -2 then [Left]
      else if Node.balance_factor self =? 2 then [Right]
      else []
  end.

(** The rotation that [_balanced_tree] carries out on a node, after it
    has refreshed the height. *)
Definition balanced_tree_rotation (self : node) : list rotation :=
  match self with
  | EMPTY_NODE => []
  | AVLNode x l r _ => rotation_chosen (Node._update_height x l r)
  end.

(** The rotations of [Node.insert], in the order in which they happen
    (the deepest node first). *)
Fixpoint insert_rotations (self : node) (entry : Z) : list rotation :=
  match self with
  | EMPTY_NODE => []
  | AVLNode x l r h =>
      if entry >? x then
        match Node.insert r entry with
        | Return r' =>
            insert_rotations r entry ++ balanced_tree_rotation (AVLNode x l r' h)
        | Raised _ _ => insert_rotations r entry
        end
      else if entry <? x then
        match Node.insert l entry with
        | Return l' =>
            insert_rotations l entry ++ balanced_tree_rotation (AVLNode x l' r h)
        | Raised _ _ => insert_rotations l entry
        end
      else balanced_tree_rotation self
  end.

(** *** The path of a search *)

(** The entries of the proper ancestors of the position at which the
    search for [e] ends, from the root downwards. *)
Fixpoint search_path (root : node) (e : Z) : list Z :=
  match root with
  | EMPTY_NODE => []
  | AVLNode x l r _ =>
      if e >? x then x :: search_path r e
      else if e <? x then x :: search_path l e
      else []
  end.

(** The nearest ancestor on a path (the deepest one) whose entry
    satisfies [P]. *)
Definition nearest (P : Z -> bool) (path : list Z) : option Z :=
  find P (rev path).

(** What [pred] and [succ] give when the matching node has no subtree on
    the side in question: the entry of the nearest candidate, if any. *)
Definition candidate_or_not_found (c : option Z) : result Z :=
  match c with
  | Some a => Ok a
  | None => Raise KeyError
  end.

(** *** Levels *)

(** The entries at depth [d] below a position, from left to right. *)
Fixpoint level (d : nat) (n : node) {struct n} : list Z :=
  match n with
  | EMPTY_NODE => []
  | AVLNode x l r _ =>
      match d with
      | O => [x]
      | S d' => level d' l ++ level d' r
      end
  end.

(** The number of levels below a position, counted on the structure. *)
Fixpoint depth (n : node) : nat :=
  match n with
  | EMPTY_NODE => O
  | AVLNode _ l r _ => S (Nat.max (depth l) (depth r))
  end.

(** The children of the nodes of a queue, in queue order. *)
Definition children (q : list node) : list node :=
  flat_map (fun n => match n with
                     | EMPTY_NODE => []
                     | AVLNode _ l r _ => [l; r]
                     end) q.


(** *** Example trees *)

Definition leaf (x : Z) : node := AVLNode x EMPTY_NODE EMPTY_NODE 1.

(** [AVLTree([10, 20, 30])] and what deleting its root leaves. *)
Definition tree_10_20_30 : AVLTree.t :=
  AVLTree.mk (AVLNode 20 (leaf 10) (leaf 30) 2).

Definition tree_10_30 : AVLTree.t :=
  AVLTree.mk (AVLNode 10 EMPTY_NODE (leaf 30) 2).

(** [AVLTree([5, 3, 8, 1, 4, 7, 9])] *)
Definition tree_scenario_B : AVLTree.t :=
  AVLTree.mk (AVLNode 5 (AVLNode 3 (leaf 1) (leaf 4) 2)
                        (AVLNode 8 (leaf 7) (leaf 9) 2) 3).

(** [AVLTree([2, 1])], [AVLTree([1, 2])], [AVLTree([2, 1, 3, 0])] and
    [AVLTree([2, 1, 3, 4])] *)
Definition tree_2_1 : AVLTree.t :=
  AVLTree.mk (AVLNode 2 (leaf 1) EMPTY_NODE 2).

Definition tree_1_2 : AVLTree.t :=
  AVLTree.mk (AVLNode 1 EMPTY_NODE (leaf 2) 2).

Definition tree_2_1_3_0 : AVLTree.t :=
  AVLTree.mk (AVLNode 2 (AVLNode 1 (leaf 0) EMPTY_NODE 2) (leaf 3) 3).

Definition tree_2_1_3_4 : AVLTree.t :=
  AVLTree.mk (AVLNode 2 (leaf 1) (AVLNode 3 EMPTY_NODE (leaf 4) 2) 3).

(** What [clear()] leaves of [AVLTree([2, 1])] when it raises: the node 2
    without children, with the height 2 that it cached before. *)
Definition tree_2_1_after_clear : AVLTree.t :=
  AVLTree.mk (AVLNode 2 EMPTY_NODE EMPTY_NODE 2).

(** [AVLTree([3, 2, 4, 1])], what [clear()] leaves of it when it raises
    (the node 2 has lost its child and keeps the cached height 2), and
    that state after [insert(5)]. *)
Definition tree_3_2_4_1 : AVLTree.t :=
  AVLTree.mk (AVLNode 3 (AVLNode 2 (leaf 1) EMPTY_NODE 2) (leaf 4) 3).

Definition tree_3_2_4_1_after_clear : AVLTree.t :=
  AVLTree.mk (AVLNode 3 (AVLNode 2 EMPTY_NODE EMPTY_NODE 2) (leaf 4) 3).

Definition tree_3_2_4_1_after_clear_insert_5 : AVLTree.t :=
  AVLTree.mk (AVLNode 3 (AVLNode 2 EMPTY_NODE EMPTY_NODE 2)
                        (AVLNode 4 EMPTY_NODE (leaf 5) 2) 3).

(** ** Heights and rebalancing *)

Lemma avl_height_nonneg (n : node) : avl n -> 0 <= Node.height n.
Proof.
  induction n as [|x l IHl r IHr h]; cbn [avl Node.height]; [lia |].
  intros (Hl & Hr & Hh & Hb). specialize (IHl Hl). specialize (IHr Hr). lia.
Qed.

Lemma avl_height_pos (x : Z) (l r : node) (h : Z) :
  avl (AVLNode x l r h) -> 1 <= h.
Proof.
  cbn [avl]. intros (Hl & Hr & Hh & Hb).
  pose proof (avl_height_nonneg l Hl). pose proof (avl_height_nonneg r Hr). lia.
Qed.

(** A position of positive height is a node. *)
Lemma avl_height_filled (n : node) :
  avl n -> 1 <= Node.height n ->
  exists x l r h, n = AVLNode x l r h /\ avl l /\ avl r /\
                  h = 1 + Z.max (Node.height l) (Node.height r) /\
                  -1 <= Node.height l - Node.height r <= 1.
Proof.
  destruct n as [|x l r h]; cbn [avl Node.height]; [lia |].
  intros (Hl & Hr & Hh & Hb) _. exists x, l, r, h. auto.
Qed.

Ltac avl_nonneg :=
  repeat match goal with
         | H : avl ?n |- _ =>
             lazymatch goal with
             | _ : 0 <= Node.height n |- _ => fail
             | _ => pose proof (avl_height_nonneg n H)
             end
         end.

(** Rebalancing a node whose children are AVL trees with heights at most
    two apart gives an AVL tree with the same in-order sequence; its
    height is one more than that of the higher child, or after a rotation
    possibly the same.  When the children are at most one apart, only the
    cached height is refreshed. *)
Lemma balanced_tree_avl (x : Z) (l r : node) (h0 : Z) :
  avl l -> avl r ->
  -2 <= Node.height l - Node.height r <= 2 ->
  exists n',
    Node._balanced_tree (AVLNode x l r h0) = Return n' /\
    avl n' /\
    AVLTree._inorder n' = AVLTree._inorder l ++ x :: AVLTree._inorder r /\
    (Node.height n' = 1 + Z.max (Node.height l) (Node.height r) \/
     Z.abs (Node.height l - Node.height r) = 2 /\
     Node.height n' = Z.max (Node.height l) (Node.height r)) /\
    (-1 <= Node.height l - Node.height r <= 1 ->
     n' = AVLNode x l r (1 + Z.max (Node.height l) (Node.height r))).
Proof.
  intros Hl Hr Hd. avl_nonneg.
  unfold Node._balanced_tree, Node._update_height,
    Node._balance_tree_if_unbalanced.
  cbn [Node.balance_factor Node.height].
  destruct (Z.eqb_spec (Node.height l - Node.height r) 2) as [E2|N2].
  - (* left-heavy *)
    destruct (avl_height_filled l Hl ltac:(lia))
      as (y & ll & lr & hl & -> & Hll & Hlr & Hhl & Hbl).
    cbn [Node.balance_factor Node.height andb] in *.
    destruct (Z.eqb_spec (Node.height ll - Node.height lr) (-1)) as [E1|N1].
    + destruct (avl_height_filled lr Hlr ltac:(avl_nonneg; lia))
        as (z & lrl & lrr & hlr & -> & Hlrl & Hlrr & Hhlr & Hblr).
      cbn [Node.height] in *. avl_nonneg.
      eexists. split; [reflexivity |].
      cbn [Node._update_height Node.height avl AVLTree._inorder].
      repeat split; try lia; auto.
      rewrite <- !app_assoc. simpl. rewrite <- !app_assoc. reflexivity.
    + replace (Node.height ll - Node.height lr =? -1) with false
        by (symmetry; apply Z.eqb_neq; lia).
      cbn [andb].
      replace (hl - Node.height r =? -2) with false
        by (symmetry; apply Z.eqb_neq; lia).
      cbn [andb]. avl_nonneg.
      eexists. split; [reflexivity |].
      cbn [Node._update_height Node.height avl AVLTree._inorder].
      repeat split; try lia; auto.
      rewrite <- !app_assoc. reflexivity.
  - cbn [andb].
    destruct (Z.eqb_spec (Node.height l - Node.height r) (-2)) as [E2|N2'].
    + (* right-heavy *)
      destruct (avl_height_filled r Hr ltac:(lia))
        as (y & rl & rr & hr & -> & Hrl & Hrr & Hhr & Hbr).
      cbn [Node.balance_factor Node.height andb] in *.
      destruct (Z.eqb_spec (Node.height rl - Node.height rr) 1) as [E1|N1].
      * destruct (avl_height_filled rl Hrl ltac:(avl_nonneg; lia))
          as (z & rll & rlr & hrl & -> & Hrll & Hrlr & Hhrl & Hbrl).
        cbn [Node.height] in *. avl_nonneg.
        eexists. split; [reflexivity |].
        cbn [Node._update_height Node.height avl AVLTree._inorder].
        repeat split; try lia; auto.
        rewrite <- !app_assoc. simpl. reflexivity.
      * avl_nonneg.
        eexists. split; [reflexivity |].
        cbn [Node._update_height Node.height avl AVLTree._inorder].
        repeat split; try lia; auto.
        rewrite <- !app_assoc. reflexivity.
    + eexists. split; [reflexivity |].
      cbn [Node.height avl AVLTree._inorder].
      repeat split; try lia; auto.
Qed.

(** ** Order *)

Lemma sorted_app_cons (l1 l2 : list Z) (x : Z) :
  StronglySorted Z.lt (l1 ++ x :: l2) <->
  StronglySorted Z.lt l1 /\ StronglySorted Z.lt l2 /\
  Forall (fun y => y < x) l1 /\ Forall (fun y => x < y) l2.
Proof.
  induction l1 as [|a l1 IH]; cbn [app].
  - split.
    + intros H. inversion H; subst. repeat split; auto; constructor.
    + intros (_ & S2 & _ & F2). constructor; assumption.
  - split.
    + intros H. inversion H as [|? ? Hs Hf]; subst.
      apply IH in Hs. destruct Hs as (S1 & S2 & F1 & F2).
      apply Forall_app in Hf. destruct Hf as [Hf1 Hf2].
      inversion Hf2; subst.
      repeat split; auto; constructor; auto.
    + intros (S1 & S2 & F1 & F2).
      inversion S1; subst. inversion F1; subst.
      constructor.
      * apply IH. auto.
      * apply Forall_app. split; [assumption |].
        constructor; [assumption |].
        eapply Forall_impl; [| exact F2]. cbn beta. intros; lia.
Qed.

(** The order invariant says that the in-order sequence is strictly
    ascending. *)
Lemma bst_iff_sorted (n : node) :
  bst n <-> StronglySorted Z.lt (AVLTree._inorder n).
Proof.
  induction n as [|x l IHl r IHr h]; cbn [bst AVLTree._inorder].
  - split; [constructor | trivial].
  - rewrite sorted_app_cons, IHl, IHr. tauto.
Qed.

Lemma bst_node (x : Z) (l r : node) (h : Z) :
  bst l -> bst r ->
  (forall y, In y (AVLTree._inorder l) -> y < x) ->
  (forall y, In y (AVLTree._inorder r) -> x < y) ->
  bst (AVLNode x l r h).
Proof.
  intros Hl Hr Fl Fr. cbn [bst]. rewrite !Forall_forall. auto.
Qed.

Lemma bst_inv (x : Z) (l r : node) (h : Z) :
  bst (AVLNode x l r h) ->
  bst l /\ bst r /\
  (forall y, In y (AVLTree._inorder l) -> y < x) /\
  (forall y, In y (AVLTree._inorder r) -> x < y).
Proof.
  cbn [bst]. rewrite !Forall_forall. tauto.
Qed.

(** Two positions with the same in-order sequence are ordered alike. *)
Lemma bst_same_inorder (n n' : node) :
  AVLTree._inorder n' = AVLTree._inorder n -> bst n -> bst n'.
Proof.
  intros E. rewrite !bst_iff_sorted, E. trivial.
Qed.

(** The loop of [max] ends on the greatest entry. *)
Lemma max_loop_spec (r : node) :
  forall x, bst r -> (forall y, In y (AVLTree._inorder r) -> x < y) ->
  (Node.max_loop x r = x \/ In (Node.max_loop x r) (AVLTree._inorder r)) /\
  x <= Node.max_loop x r /\
  (forall y, In y (AVLTree._inorder r) -> y <= Node.max_loop x r).
Proof.
  induction r as [|z rl _ rr IH h]; intros x Hb Hx; cbn [Node.max_loop].
  - cbn. repeat split; auto; try lia; intros y [].
  - apply bst_inv in Hb. destruct Hb as (Hrl & Hrr & Frl & Frr).
    destruct (IH z Hrr Frr) as (Hin & Hle & Hall).
    cbn [AVLTree._inorder] in *.
    assert (x < z) by (apply Hx, in_or_app; right; left; reflexivity).
    repeat split.
    + right. apply in_or_app. right. destruct Hin as [-> | Hin];
        [left; reflexivity | right; assumption].
    + lia.
    + intros y Hy. apply in_app_or in Hy. destruct Hy as [Hy | [<- | Hy]].
      * apply Frl in Hy. lia.
      * lia.
      * auto.
Qed.

Lemma min_loop_spec (l : node) :
  forall x, bst l -> (forall y, In y (AVLTree._inorder l) -> y < x) ->
  (Node.min_loop x l = x \/ In (Node.min_loop x l) (AVLTree._inorder l)) /\
  Node.min_loop x l <= x /\
  (forall y, In y (AVLTree._inorder l) -> Node.min_loop x l <= y).
Proof.
  induction l as [|z ll IH lr _ h]; intros x Hb Hx; cbn [Node.min_loop].
  - cbn. repeat split; auto; try lia; intros y [].
  - apply bst_inv in Hb. destruct Hb as (Hll & Hlr & Fll & Flr).
    destruct (IH z Hll Fll) as (Hin & Hle & Hall).
    cbn [AVLTree._inorder] in *.
    assert (z < x) by (apply Hx, in_or_app; right; left; reflexivity).
    repeat split.
    + right. apply in_or_app. destruct Hin as [-> | Hin];
        [right; left; reflexivity | left; assumption].
    + lia.
    + intros y Hy. apply in_app_or in Hy. destruct Hy as [Hy | [<- | Hy]].
      * auto.
      * lia.
      * apply Flr in Hy. lia.
Qed.

(** [max] of a node of a search tree: its greatest entry. *)
Lemma max_spec (x : Z) (l r : node) (h : Z) :
  bst (AVLNode x l r h) ->
  exists m, Node.max (AVLNode x l r h) = Ok m /\
            In m (AVLTree._inorder (AVLNode x l r h)) /\
            (forall y, In y (AVLTree._inorder (AVLNode x l r h)) -> y <= m).
Proof.
  intros Hb. apply bst_inv in Hb. destruct Hb as (Hl & Hr & Fl & Fr).
  destruct (max_loop_spec r x Hr Fr) as (Hin & Hle & Hall).
  exists (Node.max_loop x r). cbn [Node.max AVLTree._inorder].
  repeat split.
  - apply in_or_app. right. destruct Hin as [-> | Hin];
      [left; reflexivity | right; assumption].
  - intros y Hy. apply in_app_or in Hy. destruct Hy as [Hy | [<- | Hy]].
    + apply Fl in Hy. lia.
    + lia.
    + auto.
Qed.

(** ** Insertion *)

Ltac cmp e x :=
  destruct (Z.gtb_spec e x); [| destruct (Z.ltb_spec e x)].

(** [insert] on an ordered AVL tree returns an ordered AVL tree that holds
    the old entries and the new one, and is at most one higher. *)
Lemma insert_spec (n : node) (e : Z) :
  avl n -> bst n ->
  exists n',
    Node.insert n e = Return n' /\ avl n' /\ bst n' /\
    Node.height n <= Node.height n' <= Node.height n + 1 /\
    (forall y, In y (AVLTree._inorder n') <-> y = e \/ In y (AVLTree._inorder n)).
Proof.
  induction n as [|x l IHl r IHr h]; intros Ha Hb.
  - eexists. split; [reflexivity |].
    cbn. repeat split; auto; try lia; intuition.
  - pose proof Ha as Ha'. cbn [avl] in Ha'.
    destruct Ha' as (Hal & Har & Hh & Hbal).
    destruct (bst_inv _ _ _ _ Hb) as (Hbl & Hbr & Fl & Fr).
    cbn [Node.insert Node.height]. cmp e x.
    + destruct (IHr Har Hbr) as (r' & -> & Har' & Hbr' & Hhr' & Hin').
      destruct (balanced_tree_avl x l r' h Hal Har' ltac:(lia))
        as (n' & -> & Han' & Hino & Hhn' & _).
      exists n'. split; [reflexivity |].
      split; [exact Han' |]. split; [| split; [lia |]].
      * apply (bst_same_inorder (AVLNode x l r' h)); [exact Hino |].
        apply bst_node; auto.
        intros y Hy. apply Hin' in Hy. destruct Hy as [-> | Hy]; auto.
      * intros y. rewrite Hino, in_app_iff. cbn [In]. rewrite Hin'.
        cbn [AVLTree._inorder]. rewrite in_app_iff. cbn [In]. tauto.
    + destruct (IHl Hal Hbl) as (l' & -> & Hal' & Hbl' & Hhl' & Hin').
      destruct (balanced_tree_avl x l' r h Hal' Har ltac:(lia))
        as (n' & -> & Han' & Hino & Hhn' & _).
      exists n'. split; [reflexivity |].
      split; [exact Han' |]. split; [| split; [lia |]].
      * apply (bst_same_inorder (AVLNode x l' r h)); [exact Hino |].
        apply bst_node; auto.
        intros y Hy. apply Hin' in Hy. destruct Hy as [-> | Hy]; auto.
      * intros y. rewrite Hino, in_app_iff. cbn [In]. rewrite Hin'.
        cbn [AVLTree._inorder]. rewrite in_app_iff. cbn [In]. tauto.
    + assert (e = x) by lia. subst e.
      destruct (balanced_tree_avl x l r h Hal Har ltac:(lia))
        as (n' & -> & Han' & Hino & Hhn' & Hsame).
      specialize (Hsame Hbal). rewrite <- Hh in Hsame. subst n'.
      exists (AVLNode x l r h). split; [reflexivity |].
      split; [exact Ha |]. split; [exact Hb |]. split; [lia |].
      intros y. split; [intros Hy; right; exact Hy |].
      intros [-> | Hy]; [| exact Hy].
      cbn [AVLTree._inorder]. apply in_or_app. right. left. reflexivity.
Qed.

(** Inserting an entry that the search finds returns the tree as it is. *)
Lemma insert_present (n : node) (e : Z) :
  avl n ->
  (exists m, AVLTree._search_loop n e = Ok m) ->
  Node.insert n e = Return n.
Proof.
  induction n as [|x l IHl r IHr h]; intros Ha [m Hm].
  - discriminate Hm.
  - pose proof Ha as Ha'. cbn [avl] in Ha'.
    destruct Ha' as (Hal & Har & Hh & Hbal).
    cbn [Node.insert AVLTree._search_loop] in *.
    assert (Hself : Node._balanced_tree (AVLNode x l r h) = Return (AVLNode x l r h)).
    { destruct (balanced_tree_avl x l r h Hal Har ltac:(lia))
        as (n' & -> & _ & _ & _ & Hsame).
      rewrite (Hsame Hbal), <- Hh. reflexivity. }
    cmp e x.
    + rewrite (IHr Har (ex_intro _ m Hm)). exact Hself.
    + rewrite (IHl Hal (ex_intro _ m Hm)). exact Hself.
    + exact Hself.
Qed.

(** ** Deletion *)

(** [delete] of a present entry returns an ordered AVL tree without it,
    at most one lower; [delete] of an absent entry raises [KeyError] and
    leaves every node as it was. *)
Lemma delete_spec (n : node) :
  avl n -> bst n ->
  forall e,
    (In e (AVLTree._inorder n) ->
     exists n',
       Node.delete n e = Return n' /\ avl n' /\ bst n' /\
       Node.height n - 1 <= Node.height n' <= Node.height n /\
       (forall y, In y (AVLTree._inorder n') <->
                  In y (AVLTree._inorder n) /\ y <> e)) /\
    (~ In e (AVLTree._inorder n) -> Node.delete n e = Raised KeyError n).
Proof.
  induction n as [|x l IHl r IHr h]; intros Ha Hb e.
  - split; [intros [] | reflexivity].
  - pose proof Ha as Ha'. cbn [avl] in Ha'.
    destruct Ha' as (Hal & Har & Hh & Hbal).
    destruct (bst_inv _ _ _ _ Hb) as (Hbl & Hbr & Fl & Fr).
    specialize (IHl Hal Hbl). specialize (IHr Har Hbr).
    cbn [Node.delete Node.height AVLTree._inorder].
    setoid_rewrite in_app_iff. cbn [In].
    cmp e x.
    + (* the entry is to the right *)
      destruct (IHr e) as [IHin IHout]. split.
      * intros Hin.
        assert (Hr : In e (AVLTree._inorder r)).
        { destruct Hin as [Hin | [-> | Hin]]; [apply Fl in Hin | |]; auto; lia. }
        destruct (IHin Hr) as (r' & -> & Har' & Hbr' & Hhr' & Hin').
        destruct (balanced_tree_avl x l r' h Hal Har' ltac:(lia))
          as (n' & -> & Han' & Hino & Hhn' & _).
        exists n'. split; [reflexivity |].
        split; [exact Han' |]. split; [| split; [lia |]].
        -- apply (bst_same_inorder (AVLNode x l r' h)); [exact Hino |].
           apply bst_node; auto. intros y Hy. apply Hin' in Hy. apply Fr, Hy.
        -- intros y. rewrite Hino, in_app_iff. cbn [In]. rewrite Hin'.
           pose proof (Fl y). pose proof (Fr y). intuition lia.
      * intros Hout. rewrite IHout; [reflexivity |]. tauto.
    + (* the entry is to the left *)
      destruct (IHl e) as [IHin IHout]. split.
      * intros Hin.
        assert (Hl : In e (AVLTree._inorder l)).
        { destruct Hin as [Hin | [-> | Hin]]; [| | apply Fr in Hin]; auto; lia. }
        destruct (IHin Hl) as (l' & -> & Hal' & Hbl' & Hhl' & Hin').
        destruct (balanced_tree_avl x l' r h Hal' Har ltac:(lia))
          as (n' & -> & Han' & Hino & Hhn' & _).
        exists n'. split; [reflexivity |].
        split; [exact Han' |]. split; [| split; [lia |]].
        -- apply (bst_same_inorder (AVLNode x l' r h)); [exact Hino |].
           apply bst_node; auto. intros y Hy. apply Hin' in Hy. apply Fl, Hy.
        -- intros y. rewrite Hino, in_app_iff. cbn [In]. rewrite Hin'.
           pose proof (Fl y). pose proof (Fr y). intuition lia.
      * intros Hout. rewrite IHout; [reflexivity |]. tauto.
    + (* the entry is here *)
      assert (e = x) by lia. subst e.
      split; [intros _ | intros Hout; exfalso; apply Hout; auto].
      avl_nonneg.
      destruct l as [|lx ll lr lh].
      * destruct r as [|rx rl rr rh]; cbn [Node.is_leaf Node.__bool__ orb negb].
        -- exists EMPTY_NODE. split; [reflexivity |].
           cbn [avl bst Node.height AVLTree._inorder app In] in *.
           repeat split; auto; try lia; tauto.
        -- exists (AVLNode rx rl rr rh). split; [reflexivity |].
           split; [exact Har |]. split; [exact Hbr |].
           cbn [Node.height AVLTree._inorder app In] in *.
           split; [lia |]. intros y. pose proof (Fr y). intuition lia.
      * cbn [Node.is_leaf Node.__bool__ orb negb].
        destruct (max_spec lx ll lr lh Hbl) as (m & -> & Hm & Hmax).
        destruct (IHl m) as [IHin _].
        destruct (IHin Hm) as (l' & -> & Hal' & Hbl' & Hhl' & Hin').
        destruct (balanced_tree_avl m l' r h Hal' Har ltac:(lia))
          as (n' & -> & Han' & Hino & Hhn' & _).
        exists n'. split; [reflexivity |].
        split; [exact Han' |]. split; [| split; [lia |]].
        -- apply (bst_same_inorder (AVLNode m l' r h)); [exact Hino |].
           apply bst_node; auto.
           ++ intros y Hy. apply Hin' in Hy. destruct Hy as [Hy Hne].
              apply Hmax in Hy. lia.
           ++ intros y Hy. apply Fr in Hy. apply Fl in Hm. lia.
        -- intros y. rewrite Hino, in_app_iff. cbn [In]. rewrite Hin'.
           pose proof (Fl m Hm). pose proof (Fl y). pose proof (Fr y).
           destruct (Z.eq_dec m y) as [<- | Hne]; intuition lia.
Qed.

(** ** Positions *)

Lemma position_trans (p q n : node) :
  position p q -> position q n -> position p n.
Proof.
  intros Hpq Hqn. induction Hqn.
  - exact Hpq.
  - apply position_left. assumption.
  - apply position_right. assumption.
Qed.

Lemma avl_position (n p : node) : avl n -> position p n -> avl p.
Proof.
  intros Ha Hp. induction Hp as [| x l r h _ IH | x l r h _ IH].
  - exact Ha.
  - apply IH. cbn [avl] in Ha. tauto.
  - apply IH. cbn [avl] in Ha. tauto.
Qed.

Lemma bst_position (n p : node) : bst n -> position p n -> bst p.
Proof.
  intros Hb Hp. induction Hp as [| x l r h _ IH | x l r h _ IH].
  - exact Hb.
  - apply IH. cbn [bst] in Hb. tauto.
  - apply IH. cbn [bst] in Hb. tauto.
Qed.

Lemma position_entry_in (n q : node) (y : Z) :
  position q n -> Node.entry q = Ok y -> In y (AVLTree._inorder n).
Proof.
  intros Hp Hy. induction Hp as [| x l r h _ IH | x l r h _ IH].
  - destruct q as [|x l r h]; [discriminate |].
    injection Hy as ->. cbn [AVLTree._inorder].
    apply in_or_app. right. left. reflexivity.
  - cbn [AVLTree._inorder]. apply in_or_app. left. exact IH.
  - cbn [AVLTree._inorder]. apply in_or_app. right. right. exact IH.
Qed.




Lemma avl_height_balanced (n : node) : avl n -> height_balanced n.
Proof.
  intros Ha p x l r h Hp ->.
  pose proof (avl_position _ _ Ha Hp) as Hap. cbn [avl] in Hap.
  cbn [Node.balance_factor]. split; [tauto | lia].
Qed.

(** ** Clearing *)

Lemma clear_returns_empty (n v : node) :
  Node.clear n = Return v -> v = EMPTY_NODE.
Proof.
  destruct n as [|x l r h]; cbn [Node.clear]; [discriminate |].
  destruct (Node.is_leaf l r); [intros [= <-]; reflexivity |].
  destruct (Node.clear l); [| discriminate].
  destruct (Node.clear r); [| discriminate].
  intros [= <-]. reflexivity.
Qed.

(** [clear] returns below exactly the nodes that are [full]; in every
    other case, the sentinel included, it raises [AttributeError]. *)
Lemma clear_spec (n : node) :
  if full n then Node.clear n = Return EMPTY_NODE
  else exists n', Node.clear n = Raised AttributeError n'.
Proof.
  induction n as [|x l IHl r IHr h]; cbn [full Node.clear].
  - eexists. reflexivity.
  - destruct (Node.is_leaf l r) eqn:Hleaf; cbn [orb]; [reflexivity |].
    destruct (full l).
    + rewrite IHl. cbn [andb]. destruct (full r).
      * rewrite IHr. reflexivity.
      * destruct IHr as [r' ->]. eexists. reflexivity.
    + cbn [andb]. destruct IHl as [l' ->]. eexists. reflexivity.
Qed.

(** ** Built trees *)

Lemma insert_valid (t : AVLTree.t) (e : Z) :
  valid t ->
  exists t', AVLTree.insert t e = (Ok tt, t') /\ valid t'.
Proof.
  intros [Ha Hb].
  destruct (insert_spec _ e Ha Hb) as (n' & Hi & Ha' & Hb' & _).
  exists (AVLTree.mk n'). unfold AVLTree.insert. rewrite Hi.
  split; [reflexivity | split; assumption].
Qed.

Lemma insert_all_valid (entries : list Z) :
  forall t, valid t ->
  exists t', AVLTree.insert_all t entries = (Ok tt, t') /\ valid t'.
Proof.
  induction entries as [|e rest IH]; intros t Hv; cbn [AVLTree.insert_all].
  - exists t. split; [reflexivity | exact Hv].
  - destruct (insert_valid t e Hv) as (t1 & -> & Hv1). apply IH, Hv1.
Qed.

Lemma init_valid (a : AVLTree.args) :
  exists t, AVLTree.__init__ a = Ok t /\ valid t.
Proof.
  assert (Hv : valid (AVLTree.mk EMPTY_NODE)) by (split; exact I).
  unfold AVLTree.__init__, AVLTree._init_tree. destruct a as [| other | entries].
  - eexists. split; [reflexivity | exact Hv].
  - destruct (insert_all_valid (AVLTree.traverse other "bfs") _ Hv)
      as (t' & -> & Hv').
    exists t'. split; [reflexivity | exact Hv'].
  - destruct (insert_all_valid entries _ Hv) as (t' & -> & Hv').
    exists t'. split; [reflexivity | exact Hv'].
Qed.

(** [delete] on a valid tree: it returns and leaves a valid tree without
    the entry, or it raises [KeyError] and leaves the tree as it was. *)
Lemma delete_valid (t : AVLTree.t) (e : Z) :
  valid t ->
  (In e (AVLTree._inorder (AVLTree.root t)) /\
   exists t', AVLTree.delete t e = (Ok tt, t') /\ valid t' /\
              ~ In e (AVLTree._inorder (AVLTree.root t'))) \/
  (~ In e (AVLTree._inorder (AVLTree.root t)) /\
   AVLTree.delete t e = (Raise KeyError, t)).
Proof.
  intros [Ha Hb]. destruct t as [n]. cbn [AVLTree.root] in *.
  destruct (delete_spec n Ha Hb e) as [Hin Hout].
  destruct (in_dec Z.eq_dec e (AVLTree._inorder n)) as [Hy | Hn].
  - left. split; [exact Hy |].
    destruct (Hin Hy) as (n' & Hd & Ha' & Hb' & _ & Hel).
    exists (AVLTree.mk n'). unfold AVLTree.delete. cbn [AVLTree.root].
    rewrite Hd. split; [reflexivity |]. split; [split; assumption |].
    cbn [AVLTree.root]. rewrite Hel. tauto.
  - right. split; [exact Hn |].
    unfold AVLTree.delete. cbn [AVLTree.root]. rewrite (Hout Hn). reflexivity.
Qed.

Lemma built_valid (t : AVLTree.t) : built t -> valid t.
Proof.
  induction 1 as [a t Hi | t e res t' _ IH Hi | t e res t' _ IH Hd
                 | t t' _ IH Hc].
  - destruct (init_valid a) as (t0 & Ht0 & Hv). congruence.
  - destruct (insert_valid t e IH) as (t1 & Ht1 & Hv). congruence.
  - destruct (delete_valid t e IH) as [(_ & t1 & Ht1 & Hv & _) | (_ & Ht1)];
      congruence.
  - unfold AVLTree.clear in Hc.
    destruct (Node.clear (AVLTree.root t)) as [v | ex n'] eqn:Hcl;
      cbn [AVLTree.assign_root] in Hc; [| discriminate].
    apply clear_returns_empty in Hcl. subst v.
    injection Hc as <-. split; exact I.
Qed.

(** ** Predecessor and successor *)

Lemma find_snoc (P : Z -> bool) (l : list Z) (x : Z) :
  find P (l ++ [x]) =
  match find P l with
  | Some a => Some a
  | None => if P x then Some x else None
  end.
Proof.
  induction l as [|a l IH]; cbn [app find]; [reflexivity |].
  destruct (P a); [reflexivity | exact IH].
Qed.

(** [pred] with a threaded candidate [c], when the search finds [e]. *)
Lemma pred_found (n : node) :
  forall c e x l r h,
    AVLTree._search_loop n e = Ok (AVLNode x l r h) ->
    Node.pred n c e =
    if Node.__bool__ l then Node.max l
    else match nearest (fun a => e >? a) (search_path n e) with
         | Some a => Ok a
         | None => if Node.__bool__ c then Node.entry c else Raise KeyError
         end.
Proof.
  induction n as [|x0 l0 IHl r0 IHr h0]; intros c e x l r h Hs;
    [discriminate |].
  cbn [AVLTree._search_loop Node.pred search_path] in *.
  unfold nearest in *. cmp e x0.
  - rewrite (IHr _ _ _ _ _ _ Hs). cbn [rev]. rewrite find_snoc.
    destruct (Node.__bool__ l); [reflexivity |].
    destruct (find _ (rev (search_path r0 e))); [reflexivity |].
    cbn [Node.__bool__ Node.entry].
    destruct (Z.gtb_spec e x0); [reflexivity | lia].
  - rewrite (IHl _ _ _ _ _ _ Hs). cbn [rev]. rewrite find_snoc.
    destruct (Node.__bool__ l); [reflexivity |].
    destruct (find _ (rev (search_path l0 e))); [reflexivity |].
    destruct (Z.gtb_spec e x0); [lia | reflexivity].
  - injection Hs as -> -> -> ->. reflexivity.
Qed.

Lemma succ_found (n : node) :
  forall c e x l r h,
    AVLTree._search_loop n e = Ok (AVLNode x l r h) ->
    Node.succ n c e =
    if Node.__bool__ r then Node.min r
    else match nearest (fun a => e <? a) (search_path n e) with
         | Some a => Ok a
         | None => if Node.__bool__ c then Node.entry c else Raise KeyError
         end.
Proof.
  induction n as [|x0 l0 IHl r0 IHr h0]; intros c e x l r h Hs;
    [discriminate |].
  cbn [AVLTree._search_loop Node.succ search_path] in *.
  unfold nearest in *. cmp e x0.
  - rewrite (IHr _ _ _ _ _ _ Hs). cbn [rev]. rewrite find_snoc.
    destruct (Node.__bool__ r); [reflexivity |].
    destruct (find _ (rev (search_path r0 e))); [reflexivity |].
    destruct (Z.ltb_spec e x0); [lia | reflexivity].
  - rewrite (IHl _ _ _ _ _ _ Hs). cbn [rev]. rewrite find_snoc.
    destruct (Node.__bool__ r); [reflexivity |].
    destruct (find _ (rev (search_path l0 e))); [reflexivity |].
    cbn [Node.__bool__ Node.entry].
    destruct (Z.ltb_spec e x0); [reflexivity | lia].
  - injection Hs as -> -> -> ->. reflexivity.
Qed.

(** The search raises nothing but [KeyError], and what it returns is a
    node that holds the entry. *)
Lemma search_loop_cases (n : node) (e : Z) :
  (exists l r h, AVLTree._search_loop n e = Ok (AVLNode e l r h)) \/
  AVLTree._search_loop n e = Raise KeyError.
Proof.
  induction n as [|x l IHl r IHr h]; cbn [AVLTree._search_loop];
    [right; reflexivity |].
  cmp e x; [exact IHr | exact IHl |].
  left. assert (e = x) by lia. subst e. exists l, r, h. reflexivity.
Qed.

Lemma pred_succ_absent (n : node) :
  forall c c' e,
    AVLTree._search_loop n e = Raise KeyError ->
    Node.pred n c e = Raise KeyError /\ Node.succ n c' e = Raise KeyError.
Proof.
  induction n as [|x l IHl r IHr h]; intros c c' e Hs;
    [split; reflexivity |].
  cbn [AVLTree._search_loop Node.pred Node.succ] in *.
  cmp e x; [apply IHr, Hs | apply IHl, Hs | discriminate].
Qed.

(** [__contains__] answers, and tells whether the search finds the entry. *)
Lemma contains_search (t : AVLTree.t) (e : Z) :
  (AVLTree.__contains__ t e = Ok true /\
   exists l r h, AVLTree._search t e = Ok (AVLNode e l r h)) \/
  (AVLTree.__contains__ t e = Ok false /\
   AVLTree._search t e = Raise KeyError).
Proof.
  unfold AVLTree.__contains__, AVLTree.search, AVLTree._search.
  destruct (search_loop_cases (AVLTree.root t) e) as [(l & r & h & ->) | ->].
  - left. split; [reflexivity |]. exists l, r, h. reflexivity.
  - right. split; reflexivity.
Qed.





(** ** Equality *)



(** ** Further facts about the public calls *)

Lemma traverse_inorder (t : AVLTree.t) :
  AVLTree.traverse t "inorder" = AVLTree._inorder (AVLTree.root t).
Proof. reflexivity. Qed.

(** The position that the search returns is one of the tree. *)
Lemma search_loop_position (n : node) (e : Z) (m : node) :
  AVLTree._search_loop n e = Ok m -> position m n.
Proof.
  induction n as [|x l IHl r IHr h]; cbn [AVLTree._search_loop];
    [discriminate |].
  cmp e x.
  - intros Hs. apply position_right, IHr, Hs.
  - intros Hs. apply position_left, IHl, Hs.
  - intros [= <-]. apply position_here.
Qed.

(** [_balance_tree_if_unbalanced] carries out the rotation that
    [rotation_chosen] names, and none otherwise. *)
Lemma balance_follows_rotation_chosen (x : Z) (l r : node) (h : Z) :
  Node._balance_tree_if_unbalanced (AVLNode x l r h) =
  match rotation_chosen (AVLNode x l r h) with
  | [LeftRight] => Node._rotate_left_right (AVLNode x l r h)
  | [RightLeft] => Node._rotate_right_left (AVLNode x l r h)
  | [Left] => Node._rotate_left (AVLNode x l r h)
  | [Right] => Node._rotate_right (AVLNode x l r h)
  | _ => Ok (AVLNode x l r h)
  end.
Proof.
  unfold Node._balance_tree_if_unbalanced, rotation_chosen.
  repeat match goal with
         | |- context [if ?b then _ else _] => destruct b
         end; reflexivity.
Qed.

(** On a built tree, a [delete] that raises has raised [KeyError] for an
    absent entry and has left the tree as it was. *)
Lemma delete_raise_unchanged (t : AVLTree.t) (e : Z) (ex : exn) (t' : AVLTree.t) :
  built t ->
  AVLTree.delete t e = (Raise ex, t') ->
  ex = KeyError /\ t' = t /\ AVLTree.__contains__ t e = Ok false.
Proof.
  intros Hb Hd.
  destruct (delete_valid t e (built_valid t Hb))
    as [(_ & t1 & Ht1 & _) | (Hout & Ht1)]; [congruence |].
  rewrite Ht1 in Hd. injection Hd as <- <-.
  repeat split.
  destruct (contains_search t e) as [(_ & l & r & h & Hs) | [Hc _]];
    [| exact Hc].
  exfalso. apply Hout.
  apply (position_entry_in _ (AVLNode e l r h));
    [apply search_loop_position with (e := e); exact Hs | reflexivity].
Qed.

(** On a built tree, [insert] returns. *)
Lemma insert_returns (t : AVLTree.t) (e : Z) :
  built t -> exists t', AVLTree.insert t e = (Ok tt, t').
Proof.
  intros Hb. destruct (insert_valid t e (built_valid t Hb)) as (t' & Ht' & _).
  exists t'. exact Ht'.
Qed.


(** ** Built examples *)

Lemma built_tree_10_20_30 : built tree_10_20_30.
Proof.
  apply (built_init (AVLTree.FromIterable [10; 20; 30])). reflexivity.
Qed.

Lemma built_tree_10_30 : built tree_10_30.
Proof.
  apply (built_delete tree_10_20_30 20 (Ok tt));
    [exact built_tree_10_20_30 | reflexivity].
Qed.

(** ** Main results *)

(** C1.  [clear] is meant to succeed on every tree and leave it empty.
    It does so only on trees all of whose nodes have no child or two
    ([clear_spec]): on the empty tree, and on the tree made from [1, 2],
    whose root has a right child only, it raises [AttributeError] and
    the tree stays as it was. *)
Theorem clear_raises_on_empty_and_on_single_child :
  AVLTree.__init__ AVLTree.NoArgs = Ok empty_tree /\
  AVLTree.clear empty_tree = (Raise AttributeError, empty_tree) /\
  AVLTree.__init__ (AVLTree.FromIterable [1; 2]) = Ok tree_1_2 /\
  AVLTree.clear tree_1_2 = (Raise AttributeError, tree_1_2) /\
  AVLTree.traverse tree_1_2 "inorder" = [1; 2].
Proof. repeat split. Qed.

(** C2.  [min] and [max] on the empty tree are meant to fail as not
    found ([KeyError]); the sentinel has neither method, and the call
    raises [AttributeError]. *)
Theorem min_max_on_empty_raise_attribute_error :
  AVLTree.__init__ AVLTree.NoArgs = Ok empty_tree /\
  AVLTree.min empty_tree = Raise AttributeError /\
  AVLTree.max empty_tree = Raise AttributeError.
Proof. repeat split. Qed.

(** C3.  Equality of trees is meant to return a boolean on every pair of
    trees.  Whenever it returns, it returns what the specification says
    ([tree_eq_returns]); but comparing the tree made from [2, 1, 3, 0]
    with the one made from [2, 1, 3, 4] (same height, same length)
    raises [AttributeError], when the node 0 is compared with the
    sentinel.  The other way round the answer is [False]. *)
Theorem tree_eq_raises_attribute_error :
  AVLTree.__init__ (AVLTree.FromIterable [2; 1; 3; 0]) = Ok tree_2_1_3_0 /\
  AVLTree.__init__ (AVLTree.FromIterable [2; 1; 3; 4]) = Ok tree_2_1_3_4 /\
  AVLTree.height tree_2_1_3_0 = AVLTree.height tree_2_1_3_4 /\
  AVLTree.__len__ tree_2_1_3_0 = AVLTree.__len__ tree_2_1_3_4 /\
  AVLTree.__eq__ tree_2_1_3_0 tree_2_1_3_4 = Raise AttributeError /\
  AVLTree.__eq__ tree_2_1_3_4 tree_2_1_3_0 = Ok false.
Proof. repeat split. Qed.

(** C4.  A public call that raises is meant to leave the tree as it was.
    [delete] does ([delete_raise_unchanged]), and [search], [pred],
    [succ], [min], [max] assign nothing; but [clear] on the tree made
    from [2, 1] has emptied the left child of the root when it raises
    [AttributeError] on the right one: the entry 1 is gone and the root
    keeps the cached height 2. *)
Theorem clear_raise_changes_tree :
  AVLTree.__init__ (AVLTree.FromIterable [2; 1]) = Ok tree_2_1 /\
  AVLTree.clear tree_2_1 =
    (Raise AttributeError, AVLTree.mk (AVLNode 2 EMPTY_NODE EMPTY_NODE 2)) /\
  AVLTree.traverse tree_2_1 "inorder" = [1; 2] /\
  AVLTree.traverse (snd (AVLTree.clear tree_2_1)) "inorder" = [2] /\
  AVLTree.height (snd (AVLTree.clear tree_2_1)) = 2 /\
  snd (AVLTree.clear tree_2_1) <> tree_2_1.
Proof. repeat split. discriminate. Qed.

(** Height and balance on built trees: in every tree built by the
    constructor, [insert], [delete], and [clear] when it returns, every
    reachable node caches [1 + max(left.height, right.height)] as its
    height and has a balance factor of -1, 0 or 1; the height of the
    sentinel is 0. *)
Theorem built_height_balanced (t : AVLTree.t) :
  built t ->
  height_balanced (AVLTree.root t) /\ Node.height EMPTY_NODE = 0.
Proof.
  intros Hb. split; [| reflexivity].
  apply avl_height_balanced. exact (proj1 (built_valid t Hb)).
Qed.

Lemma built_height_balanced_witness :
  built tree_10_30 /\
  height_balanced (AVLTree.root tree_10_30) /\ Node.height EMPTY_NODE = 0.
Proof.
  split; [exact built_tree_10_30 |].
  apply (built_height_balanced tree_10_30). exact built_tree_10_30.
Defined.

(** C5.  The height and balance invariant is meant to hold after every
    public mutating call, [clear] included.  It does not: [clear()] on
    the tree made from [2, 1] raises [AttributeError] after it has
    emptied the left child, and leaves the node 2 without children but
    with the cached height 2.  Nor does a later call repair it:
    [clear()] on the tree made from [3, 2, 4, 1] raises and leaves the
    childless node 2 with the cached height 2, and after [insert(5)] has
    returned that node is as it was. *)
Theorem raising_clear_breaks_height_invariant :
  AVLTree.__init__ (AVLTree.FromIterable [2; 1]) = Ok tree_2_1 /\
  AVLTree.clear tree_2_1 = (Raise AttributeError, tree_2_1_after_clear) /\
  ~ height_balanced (AVLTree.root tree_2_1_after_clear) /\
  AVLTree.__init__ (AVLTree.FromIterable [3; 2; 4; 1]) = Ok tree_3_2_4_1 /\
  AVLTree.clear tree_3_2_4_1 =
    (Raise AttributeError, tree_3_2_4_1_after_clear) /\
  AVLTree.insert tree_3_2_4_1_after_clear 5 =
    (Ok tt, tree_3_2_4_1_after_clear_insert_5) /\
  ~ height_balanced (AVLTree.root tree_3_2_4_1_after_clear_insert_5).
Proof.
  split; [reflexivity |]. split; [reflexivity |]. split.
  - intros H.
    destruct (H _ 2 EMPTY_NODE EMPTY_NODE 2 (position_here _) eq_refl)
      as [Hh _].
    discriminate Hh.
  - split; [reflexivity |]. split; [reflexivity |]. split; [reflexivity |].
    intros H.
    destruct (H (AVLNode 2 EMPTY_NODE EMPTY_NODE 2) 2 EMPTY_NODE EMPTY_NODE 2
                (position_left _ _ _ _ _ (position_here _)) eq_refl)
      as [Hh _].
    discriminate Hh.
Qed.



(** C7.  Scenario A: inserting 10, 20, 30 into an empty tree carries out
    one rotation in all, a single left rotation during the third call;
    the tree then has the in-order traversal [10, 20, 30], the root
    entry 20 and the height 2. *)
Theorem scenario_A_one_left_rotation :
  exists t1 t2 t3,
    AVLTree.insert empty_tree 10 = (Ok tt, t1) /\
    AVLTree.insert t1 20 = (Ok tt, t2) /\
    AVLTree.insert t2 30 = (Ok tt, t3) /\
    insert_rotations (AVLTree.root empty_tree) 10 = [] /\
    insert_rotations (AVLTree.root t1) 20 = [] /\
    insert_rotations (AVLTree.root t2) 30 = [Left] /\
    AVLTree.traverse t3 "inorder" = [10; 20; 30] /\
    Node.entry (AVLTree.root t3) = Ok 20 /\
    AVLTree.height t3 = 2.
Proof.
  eexists. eexists. eexists. repeat split.
Qed.

(** C8.  [pred] and [succ].  When the search finds [e] at a node: with
    a non-empty left subtree [pred(e)] is [max] of that subtree, which in
    a built tree is its greatest entry; otherwise it is the entry of the
    nearest ancestor at which the search turned right, and [KeyError]
    when there is none.  [succ(e)] mirrors this with the right subtree,
    [min] and the nearest ancestor at which the search turned left.  When
    [e] is absent both raise [KeyError].  Scenario B: on the tree made
    from [5, 3, 8, 1, 4, 7, 9], [pred(7)] is 5, [succ(7)] is 8, [min()]
    is 1 and [max()] is 9. *)
Theorem pred_succ_contract :
  (forall t e l r h,
     AVLTree._search t e = Ok (AVLNode e l r h) ->
     AVLTree.__contains__ t e = Ok true /\
     AVLTree.pred t e =
       (if Node.__bool__ l then Node.max l
        else candidate_or_not_found
               (nearest (fun a => e >? a) (search_path (AVLTree.root t) e))) /\
     AVLTree.succ t e =
       (if Node.__bool__ r then Node.min r
        else candidate_or_not_found
               (nearest (fun a => e <? a) (search_path (AVLTree.root t) e))) /\
     (built t -> Node.__bool__ l = true ->
      exists m, Node.max l = Ok m /\ In m (AVLTree._inorder l) /\
                forall y, In y (AVLTree._inorder l) -> y <= m) /\
     (built t -> Node.__bool__ r = true ->
      exists m, Node.min r = Ok m /\ In m (AVLTree._inorder r) /\
                forall y, In y (AVLTree._inorder r) -> m <= y)) /\
  (forall t e,
     AVLTree.__contains__ t e = Ok false ->
     AVLTree.pred t e = Raise KeyError /\
     AVLTree.succ t e = Raise KeyError) /\
  (AVLTree.__init__ (AVLTree.FromIterable [5; 3; 8; 1; 4; 7; 9])
     = Ok tree_scenario_B /\
   AVLTree.pred tree_scenario_B 7 = Ok 5 /\
   AVLTree.succ tree_scenario_B 7 = Ok 8 /\
   AVLTree.min tree_scenario_B = Ok 1 /\
   AVLTree.max tree_scenario_B = Ok 9).
Proof.
  split; [| split; [| repeat split]].
  - intros t e l r h Hs. split; [| split; [| split; [| split]]].
    + destruct (contains_search t e) as [[Hc _] | [_ Hn]];
        [exact Hc | congruence].
    + unfold AVLTree.pred. rewrite (pred_found _ _ _ _ _ _ _ Hs).
      destruct (nearest _ _); reflexivity.
    + unfold AVLTree.succ. rewrite (succ_found _ _ _ _ _ _ _ Hs).
      destruct (nearest _ _); reflexivity.
    + intros Hb Hl. destruct l as [|lx ll lr lh]; [discriminate |].
      apply max_spec.
      pose proof (bst_position _ _ (proj2 (built_valid t Hb))
                    (search_loop_position _ _ _ Hs)) as Hm.
      exact (proj1 (bst_inv _ _ _ _ Hm)).
    + intros Hb Hr. destruct r as [|rx rl rr rh]; [discriminate |].
      pose proof (bst_position _ _ (proj2 (built_valid t Hb))
                    (search_loop_position _ _ _ Hs)) as Hm.
      pose proof (proj1 (proj2 (bst_inv _ _ _ _ Hm))) as Hbr.
      destruct (bst_inv _ _ _ _ Hbr) as (Hrl & Hrr & Fl & Fr).
      destruct (min_loop_spec rl rx Hrl Fl) as (Hin & Hle & Hall).
      exists (Node.min_loop rx rl). cbn [Node.min AVLTree._inorder].
      repeat split.
      * apply in_or_app. destruct Hin as [-> | Hin];
          [right; left; reflexivity | left; assumption].
      * intros y Hy. apply in_app_or in Hy. destruct Hy as [Hy | [<- | Hy]].
        -- auto.
        -- lia.
        -- apply Fr in Hy. lia.
  - intros t e Hc.
    destruct (contains_search t e) as [[Hc' _] | [_ Hn]]; [congruence |].
    exact (pred_succ_absent _ EMPTY_NODE EMPTY_NODE e Hn).
Qed.

Lemma pred_succ_contract_witness :
  AVLTree._search tree_scenario_B 7 = Ok (AVLNode 7 EMPTY_NODE EMPTY_NODE 1) /\
  AVLTree.pred tree_scenario_B 7 = Ok 5 /\
  AVLTree.succ tree_scenario_B 7 = Ok 8 /\
  AVLTree.__contains__ tree_scenario_B 6 = Ok false /\
  AVLTree.pred tree_scenario_B 6 = Raise KeyError /\
  AVLTree.succ tree_scenario_B 6 = Raise KeyError.
Proof.
  split; [reflexivity |].
  destruct (proj1 pred_succ_contract tree_scenario_B 7
              EMPTY_NODE EMPTY_NODE 1 eq_refl) as (_ & Hp & Hs & _).
  split; [rewrite Hp; reflexivity |].
  split; [rewrite Hs; reflexivity |].
  split; [reflexivity |].
  exact (proj1 (proj2 pred_succ_contract) tree_scenario_B 6 eq_refl).
Defined.

(** Inserting an entry that a built tree already contains returns and
    leaves the tree as it is: the same nodes with the same entries,
    hence the same length, height and in-order sequence. *)
Theorem insert_present_unchanged (t : AVLTree.t) (e : Z) :
  built t ->
  AVLTree.__contains__ t e = Ok true ->
  exists t',
    AVLTree.insert t e = (Ok tt, t') /\
    t' = t /\
    AVLTree.__len__ t' = AVLTree.__len__ t /\
    AVLTree.height t' = AVLTree.height t /\
    AVLTree.traverse t' "inorder" = AVLTree.traverse t "inorder".
Proof.
  intros Hb Hc. exists t.
  split; [| repeat split].
  destruct (contains_search t e) as [(_ & l & r & h & Hs) | [Hn _]];
    [| congruence].
  unfold AVLTree.insert.
  rewrite (insert_present _ e (proj1 (built_valid t Hb))
             (ex_intro _ _ Hs)).
  destruct t. reflexivity.
Qed.

Lemma insert_present_unchanged_witness :
  built tree_10_30 /\
  AVLTree.__contains__ tree_10_30 30 = Ok true /\
  exists t',
    AVLTree.insert tree_10_30 30 = (Ok tt, t') /\
    t' = tree_10_30 /\
    AVLTree.__len__ t' = AVLTree.__len__ tree_10_30 /\
    AVLTree.height t' = AVLTree.height tree_10_30 /\
    AVLTree.traverse t' "inorder" = AVLTree.traverse tree_10_30 "inorder".
Proof.
  split; [exact built_tree_10_30 |]. split; [reflexivity |].
  apply (insert_present_unchanged tree_10_30 30);
    [exact built_tree_10_30 | reflexivity].
Defined.

(** C9.  Inserting an entry that the tree holds already is meant to
    leave length, height and in-order sequence as they are, on every
    tree that public calls build.  After [clear()] has raised on the
    tree made from [2, 1], the tree holds the entry 2 and reports the
    height 2; [insert(2)] then returns and the height is 1.  Length and
    in-order sequence stay the same. *)
Theorem insert_present_after_raising_clear_changes_height :
  AVLTree.__init__ (AVLTree.FromIterable [2; 1]) = Ok tree_2_1 /\
  AVLTree.clear tree_2_1 = (Raise AttributeError, tree_2_1_after_clear) /\
  AVLTree.__contains__ tree_2_1_after_clear 2 = Ok true /\
  AVLTree.height tree_2_1_after_clear = 2 /\
  AVLTree.insert tree_2_1_after_clear 2 = (Ok tt, AVLTree.mk (leaf 2)) /\
  AVLTree.height (AVLTree.mk (leaf 2)) = 1 /\
  AVLTree.__len__ (AVLTree.mk (leaf 2)) = AVLTree.__len__ tree_2_1_after_clear /\
  AVLTree.traverse (AVLTree.mk (leaf 2)) "inorder" =
    AVLTree.traverse tree_2_1_after_clear "inorder".
Proof. repeat split. Qed.

(** C10.  [traverse] gives a traversal for every tree and every order
    string, and for every string other than 'preorder', 'postorder' and
    'bfs' it is the in-order traversal. *)
Theorem traverse_defaults_to_inorder (t : AVLTree.t) (order : string) :
  (exists entries, AVLTree.traverse t order = entries) /\
  (order <> "preorder"%string -> order <> "postorder"%string ->
   order <> "bfs"%string ->
   AVLTree.traverse t order = AVLTree._inorder (AVLTree.root t)).
Proof.
  split; [eexists; reflexivity |].
  intros Hpre Hpost Hbfs. unfold AVLTree.traverse.
  rewrite (proj2 (String.eqb_neq _ _) Hpre).
  rewrite (proj2 (String.eqb_neq _ _) Hpost).
  rewrite (proj2 (String.eqb_neq _ _) Hbfs).
  reflexivity.
Qed.

Lemma traverse_defaults_to_inorder_witness :
  "inordr"%string <> "preorder"%string /\
  "inordr"%string <> "postorder"%string /\
  "inordr"%string <> "bfs"%string /\
  AVLTree.traverse tree_scenario_B "inordr" = [1; 3; 4; 5; 7; 8; 9].
Proof.
  assert (H1 : "inordr"%string <> "preorder"%string) by discriminate.
  assert (H2 : "inordr"%string <> "postorder"%string) by discriminate.
  assert (H3 : "inordr"%string <> "bfs"%string) by discriminate.
  split; [exact H1 |]. split; [exact H2 |]. split; [exact H3 |].
  rewrite (proj2 (traverse_defaults_to_inorder tree_scenario_B "inordr")
             H1 H2 H3).
  reflexivity.
Defined.

(** ** Lengths and traversals *)

Lemma node_len_inorder (n : node) :
  Node.__len__ n = Z.of_nat (List.length (AVLTree._inorder n)).
Proof.
  induction n as [|x l IHl r IHr h]; cbn [Node.__len__ AVLTree._inorder];
    [reflexivity |].
  rewrite length_app. cbn [List.length]. lia.
Qed.

(** X1.  [len(tree)] is the number of entries that a traversal yields. *)
Theorem len_counts_entries (t : AVLTree.t) :
  AVLTree.__len__ t = Z.of_nat (List.length (AVLTree.traverse t "inorder")).
Proof. apply node_len_inorder. Qed.

Lemma preorder_perm (n : node) :
  Permutation (AVLTree._preorder n) (AVLTree._inorder n).
Proof.
  induction n as [|x l IHl r IHr h];
    cbn [AVLTree._preorder AVLTree._inorder]; [constructor |].
  apply Permutation_cons_app. apply Permutation_app; assumption.
Qed.

Lemma postorder_perm (n : node) :
  Permutation (AVLTree._postorder n) (AVLTree._inorder n).
Proof.
  induction n as [|x l IHl r IHr h];
    cbn [AVLTree._postorder AVLTree._inorder]; [constructor |].
  rewrite app_assoc. rewrite <- Permutation_cons_append.
  apply Permutation_cons_app. apply Permutation_app; assumption.
Qed.

(** The loop of [_bfs] yields the entries of the queued positions. *)
Lemma bfs_loop_perm (q : list node) :
  Permutation (AVLTree._bfs_loop q) (flat_map AVLTree._inorder q).
Proof.
  funelim (AVLTree._bfs_loop q); simp _bfs_loop; cbn [flat_map].
  - constructor.
  - assumption.
  - cbn [AVLTree._inorder].
    match goal with IH : Permutation _ (flat_map _ _) |- _ => rename IH into IH' end.
    rewrite flat_map_app in IH'. cbn [flat_map] in IH'.
    rewrite app_nil_r in IH'.
    rewrite <- app_assoc. cbn [app].
    apply Permutation_cons_app. rewrite IH'.
    etransitivity; [apply Permutation_app_comm |].
    rewrite <- app_assoc. reflexivity.
Qed.

(** X2.  The four traversals yield the same entries, each as often as
    the others: pre-order, post-order and breadth-first are rearrangements
    of the in-order traversal, on every tree. *)
Theorem traversals_yield_the_same_entries (t : AVLTree.t) :
  Permutation (AVLTree.traverse t "preorder") (AVLTree.traverse t "inorder") /\
  Permutation (AVLTree.traverse t "postorder") (AVLTree.traverse t "inorder") /\
  Permutation (AVLTree.traverse t "bfs") (AVLTree.traverse t "inorder").
Proof.
  split; [apply preorder_perm |]. split; [apply postorder_perm |].
  change (Permutation (AVLTree._bfs t) (AVLTree._inorder (AVLTree.root t))).
  unfold AVLTree._bfs. destruct (AVLTree.root t) as [|x l r h] eqn:E.
  - constructor.
  - cbn [Node.__bool__]. rewrite bfs_loop_perm. cbn [flat_map].
    rewrite app_nil_r. reflexivity.
Qed.

(** ** Searching, inserting and deleting *)

Lemma sorted_NoDup (l : list Z) : StronglySorted Z.lt l -> NoDup l.
Proof.
  induction 1 as [|a l Hs IH Hf]; constructor; [| exact IH].
  intros Hin. rewrite Forall_forall in Hf. apply Hf in Hin. lia.
Qed.

Lemma inorder_NoDup (n : node) : bst n -> NoDup (AVLTree._inorder n).
Proof. intros Hb. apply sorted_NoDup, bst_iff_sorted, Hb. Qed.














(** ** Height and size *)

Lemma node_len_nonneg (n : node) : 0 <= Node.__len__ n.
Proof. rewrite node_len_inorder. lia. Qed.







(** X9.  A built tree is falsy exactly when its length is 0, exactly
    when its height is 0, exactly when it is the empty tree. *)
Theorem falsy_iff_empty (t : AVLTree.t) :
  built t ->
  (AVLTree.__bool__ t = false <-> t = empty_tree) /\
  (AVLTree.__len__ t = 0 <-> t = empty_tree) /\
  (AVLTree.height t = 0 <-> t = empty_tree).
Proof.
  intros Hb. destruct (built_valid t Hb) as [Ha _].
  destruct t as [n]. unfold AVLTree.__bool__, AVLTree.__len__, AVLTree.height,
    empty_tree. cbn [AVLTree.root] in *.
  destruct n as [|x l r h].
  - repeat split; reflexivity.
  - pose proof (avl_height_pos _ _ _ _ Ha).
    pose proof (node_len_nonneg l). pose proof (node_len_nonneg r).
    cbn [Node.__bool__ Node.__len__ Node.height].
    repeat split; intros; try discriminate; lia.
Qed.

Lemma falsy_iff_empty_witness :
  built tree_10_30 /\
  (AVLTree.__bool__ tree_10_30 = false <-> tree_10_30 = empty_tree) /\
  (AVLTree.__len__ tree_10_30 = 0 <-> tree_10_30 = empty_tree) /\
  (AVLTree.height tree_10_30 = 0 <-> tree_10_30 = empty_tree).
Proof.
  split; [exact built_tree_10_30 |].
  exact (falsy_iff_empty tree_10_30 built_tree_10_30).
Defined.

(** ** Clearing *)

Lemma full_len_odd (n : node) : full n = true -> Z.odd (Node.__len__ n) = true.
Proof.
  induction n as [|x l IHl r IHr h]; cbn [full Node.__len__]; [discriminate |].
  intros Hf. apply orb_prop in Hf. destruct Hf as [Hleaf | Hf].
  - destruct l, r; try discriminate Hleaf. reflexivity.
  - apply andb_prop in Hf. destruct Hf as [Hfl Hfr].
    specialize (IHl Hfl). specialize (IHr Hfr).
    rewrite !Z.odd_add, IHl, IHr. reflexivity.
Qed.

(** X10.  [clear()] returns, and leaves the empty tree, exactly on the
    trees in which every node has no child or two children; on all
    others it raises [AttributeError].  In particular it raises on every
    tree with an even number of entries. *)
Theorem clear_returns_iff_full (t : AVLTree.t) :
  (full (AVLTree.root t) = true -> AVLTree.clear t = (Ok tt, empty_tree)) /\
  (full (AVLTree.root t) = false ->
   exists t', AVLTree.clear t = (Raise AttributeError, t')) /\
  (Z.even (AVLTree.__len__ t) = true -> full (AVLTree.root t) = false).
Proof.
  pose proof (clear_spec (AVLTree.root t)) as Hc.
  unfold AVLTree.clear. repeat split.
  - intros Hf. rewrite Hf in Hc. rewrite Hc. reflexivity.
  - intros Hf. rewrite Hf in Hc. destruct Hc as [n' ->].
    eexists. reflexivity.
  - intros He. destruct (full (AVLTree.root t)) eqn:Hf; [| reflexivity].
    apply full_len_odd in Hf. unfold AVLTree.__len__ in He.
    rewrite <- Z.negb_even, He in Hf. discriminate.
Qed.

Lemma clear_returns_iff_full_witness :
  full (AVLTree.root tree_10_20_30) = true /\
  AVLTree.clear tree_10_20_30 = (Ok tt, empty_tree) /\
  Z.even (AVLTree.__len__ tree_10_30) = true /\
  full (AVLTree.root tree_10_30) = false /\
  exists t', AVLTree.clear tree_10_30 = (Raise AttributeError, t').
Proof.
  split; [reflexivity |].
  split; [exact (proj1 (clear_returns_iff_full tree_10_20_30) eq_refl) |].
  split; [reflexivity |].
  split; [exact (proj2 (proj2 (clear_returns_iff_full tree_10_30)) eq_refl) |].
  exact (proj1 (proj2 (clear_returns_iff_full tree_10_30)) eq_refl).
Defined.

(** ** Equality *)





(** ** Neighbours *)





(** ** Construction *)

(** Two strictly ascending lists with the same elements are the same. *)
Lemma sorted_ext (l1 : list Z) :
  forall l2,
    StronglySorted Z.lt l1 -> StronglySorted Z.lt l2 ->
    (forall y, In y l1 <-> In y l2) -> l1 = l2.
Proof.
  induction l1 as [|a l1 IH]; intros l2 H1 H2 Hin.
  - destruct l2 as [|b l2]; [reflexivity |].
    exfalso. apply (proj2 (Hin b)). left. reflexivity.
  - destruct l2 as [|b l2].
    + exfalso. apply (proj1 (Hin a)). left. reflexivity.
    + inversion H1 as [|? ? S1 F1]; subst. inversion H2 as [|? ? S2 F2]; subst.
      rewrite Forall_forall in F1, F2.
      assert (a = b).
      { destruct (proj1 (Hin a) (or_introl eq_refl)) as [-> | Ha]; [reflexivity |].
        destruct (proj2 (Hin b) (or_introl eq_refl)) as [-> | Hb]; [reflexivity |].
        apply F2 in Ha. apply F1 in Hb. lia. }
      subst b. f_equal. apply IH; try assumption.
      intros y. split; intros Hy.
      * destruct (proj1 (Hin y) (or_intror Hy)) as [<- | Hy']; [| exact Hy'].
        apply F1 in Hy. lia.
      * destruct (proj2 (Hin y) (or_intror Hy)) as [<- | Hy']; [| exact Hy'].
        apply F2 in Hy. lia.
Qed.

Lemma insert_all_entries (entries : list Z) :
  forall t, valid t ->
  exists t',
    AVLTree.insert_all t entries = (Ok tt, t') /\ valid t' /\
    (forall y, In y (AVLTree._inorder (AVLTree.root t')) <->
               In y entries \/ In y (AVLTree._inorder (AVLTree.root t))).
Proof.
  induction entries as [|e rest IH]; intros t Hv; cbn [AVLTree.insert_all].
  - exists t. split; [reflexivity |]. split; [exact Hv |]. cbn [In]. tauto.
  - destruct Hv as [Ha Hb].
    destruct (insert_spec _ e Ha Hb) as (n' & Hi & Ha' & Hb' & _ & Hin).
    unfold AVLTree.insert. rewrite Hi. cbn [AVLTree.assign_root].
    destruct (IH (AVLTree.mk n') (conj Ha' Hb')) as (t' & -> & Hv' & Hin').
    exists t'. split; [reflexivity |]. split; [exact Hv' |].
    intros y. rewrite Hin'. cbn [AVLTree.root In]. rewrite Hin.
    intuition congruence.
Qed.

Lemma init_iterable_entries (entries : list Z) :
  exists t,
    AVLTree.__init__ (AVLTree.FromIterable entries) = Ok t /\ valid t /\
    (forall y, In y (AVLTree._inorder (AVLTree.root t)) <-> In y entries).
Proof.
  destruct (insert_all_entries entries (AVLTree.mk EMPTY_NODE))
    as (t & Ht & Hv & Hin); [split; exact I |].
  exists t. unfold AVLTree.__init__, AVLTree._init_tree. rewrite Ht.
  split; [reflexivity |]. split; [exact Hv |].
  intros y. rewrite Hin. cbn [AVLTree.root AVLTree._inorder In]. tauto.
Qed.

(** X14.  [AVLTree(iterable)] returns for every list of integers.  The
    tree holds exactly the elements of the list, each once, so it is not
    longer than the list; and its in-order traversal depends on the set
    of elements only, not on their order or repetitions. *)
Theorem init_from_iterable (entries : list Z) :
  exists t,
    AVLTree.__init__ (AVLTree.FromIterable entries) = Ok t /\
    (forall y, In y (AVLTree.traverse t "inorder") <-> In y entries) /\
    NoDup (AVLTree.traverse t "inorder") /\
    AVLTree.__len__ t <= Z.of_nat (List.length entries) /\
    (forall entries',
       (forall y, In y entries <-> In y entries') ->
       exists t',
         AVLTree.__init__ (AVLTree.FromIterable entries') = Ok t' /\
         AVLTree.traverse t' "inorder" = AVLTree.traverse t "inorder").
Proof.
  destruct (init_iterable_entries entries) as (t & Ht & [Ha Hb] & Hin).
  exists t. split; [exact Ht |]. rewrite !traverse_inorder.
  split; [exact Hin |]. split; [apply inorder_NoDup, Hb |]. split.
  - unfold AVLTree.__len__. rewrite node_len_inorder.
    apply inj_le. apply NoDup_incl_length; [apply inorder_NoDup, Hb |].
    intros y Hy. apply Hin, Hy.
  - intros entries' Hsame.
    destruct (init_iterable_entries entries') as (t' & Ht' & [Ha' Hb'] & Hin').
    exists t'. split; [exact Ht' |]. rewrite !traverse_inorder.
    apply sorted_ext; [apply bst_iff_sorted, Hb' | apply bst_iff_sorted, Hb |].
    intros y. rewrite Hin, Hin', Hsame. tauto.
Qed.

(** ** Rotations *)

Lemma rotate_left_inorder (n n' : node) :
  Node._rotate_left n = Ok n' -> AVLTree._inorder n' = AVLTree._inorder n.
Proof.
  destruct n as [|x l [|y rl rr rh] h]; cbn [Node._rotate_left]; try discriminate.
  intros [= <-]. cbn [Node._update_height AVLTree._inorder].
  rewrite <- app_assoc. reflexivity.
Qed.

Lemma rotate_right_inorder (n n' : node) :
  Node._rotate_right n = Ok n' -> AVLTree._inorder n' = AVLTree._inorder n.
Proof.
  destruct n as [|x [|y ll lr lh] r h]; cbn [Node._rotate_right]; try discriminate.
  intros [= <-]. cbn [Node._update_height AVLTree._inorder].
  rewrite <- app_assoc. reflexivity.
Qed.

Lemma rotate_left_right_inorder (n n' : node) :
  Node._rotate_left_right n = Ok n' -> AVLTree._inorder n' = AVLTree._inorder n.
Proof.
  destruct n as [|x l r h]; cbn [Node._rotate_left_right]; [discriminate |].
  destruct (Node._rotate_left l) as [l' | ex] eqn:Hl; [| discriminate].
  intros Hr. apply rotate_right_inorder in Hr. apply rotate_left_inorder in Hl.
  rewrite Hr. cbn [AVLTree._inorder]. rewrite Hl. reflexivity.
Qed.

Lemma rotate_right_left_inorder (n n' : node) :
  Node._rotate_right_left n = Ok n' -> AVLTree._inorder n' = AVLTree._inorder n.
Proof.
  destruct n as [|x l r h]; cbn [Node._rotate_right_left]; [discriminate |].
  destruct (Node._rotate_right r) as [r' | ex] eqn:Hr; [| discriminate].
  intros Hl. apply rotate_left_inorder in Hl. apply rotate_right_inorder in Hr.
  rewrite Hl. cbn [AVLTree._inorder]. rewrite Hr. reflexivity.
Qed.

(** X15.  Whatever the cached heights are, a rotation or a rebalancing
    step that returns has not changed the in-order sequence; it has
    moved nodes only. *)
Theorem rebalancing_keeps_the_inorder_sequence (n n' : node) :
  (Node._rotate_left n = Ok n' \/ Node._rotate_right n = Ok n' \/
   Node._rotate_left_right n = Ok n' \/ Node._rotate_right_left n = Ok n' \/
   Node._balance_tree_if_unbalanced n = Ok n' \/
   Node._balanced_tree n = Return n') ->
  AVLTree._inorder n' = AVLTree._inorder n /\
  Node.__len__ n' = Node.__len__ n.
Proof.
  intros H.
  assert (Hin : AVLTree._inorder n' = AVLTree._inorder n).
  { assert (Hb : forall m m', Node._balance_tree_if_unbalanced m = Ok m' ->
                   AVLTree._inorder m' = AVLTree._inorder m).
    { intros m m'. destruct m as [|x l r h];
        unfold Node._balance_tree_if_unbalanced; [discriminate |].
      repeat match goal with
             | |- context [if ?b then _ else _] => destruct b
             end;
        auto using rotate_left_inorder, rotate_right_inorder,
          rotate_left_right_inorder, rotate_right_left_inorder.
      intros [= <-]. reflexivity. }
    destruct H as [H | [H | [H | [H | [H | H]]]]];
      eauto using rotate_left_inorder, rotate_right_inorder,
        rotate_left_right_inorder, rotate_right_left_inorder.
    destruct n as [|x l r h]; cbn [Node._balanced_tree] in H; [discriminate |].
    destruct (Node._balance_tree_if_unbalanced (Node._update_height x l r))
      as [m | ex] eqn:Hm; [| discriminate].
    injection H as <-. apply Hb in Hm. exact Hm. }
  split; [exact Hin |]. rewrite !node_len_inorder, Hin. reflexivity.
Qed.

Lemma rebalancing_keeps_the_inorder_sequence_witness :
  Node._rotate_left (AVLTree.root tree_1_2) = Ok (AVLNode 2 (leaf 1) EMPTY_NODE 2) /\
  AVLTree._inorder (AVLNode 2 (leaf 1) EMPTY_NODE 2) =
    AVLTree._inorder (AVLTree.root tree_1_2) /\
  Node.__len__ (AVLNode 2 (leaf 1) EMPTY_NODE 2) =
    Node.__len__ (AVLTree.root tree_1_2).
Proof.
  split; [reflexivity |].
  exact (rebalancing_keeps_the_inorder_sequence (AVLTree.root tree_1_2)
           (AVLNode 2 (leaf 1) EMPTY_NODE 2) (or_introl eq_refl)).
Defined.

(** ** Breadth-first order *)

(** One round of the queue: the entries of the queued nodes come first,
    and their children are appended behind what was queued already. *)
Lemma bfs_loop_round (q : list node) :
  forall acc,
    AVLTree._bfs_loop (q ++ acc) =
    flat_map (level 0) q ++ AVLTree._bfs_loop (acc ++ children q).
Proof.
  induction q as [|n q IH]; intros acc.
  - cbn [app flat_map children]. rewrite app_nil_r. reflexivity.
  - destruct n as [|x l r h]; cbn [app flat_map level children].
    + simp _bfs_loop. apply IH.
    + simp _bfs_loop. rewrite <- app_assoc. rewrite IH.
      cbn [app]. rewrite <- app_assoc. reflexivity.
Qed.

Lemma level_children (d : nat) (q : list node) :
  flat_map (level d) (children q) = flat_map (level (S d)) q.
Proof.
  induction q as [|n q IH]; [reflexivity |].
  unfold children in *. cbn [flat_map]. rewrite flat_map_app, IH.
  destruct n as [|x l r h]; cbn [flat_map level app]; [reflexivity |].
  rewrite app_nil_r. reflexivity.
Qed.

Lemma children_depth (q : list node) (k : nat) :
  Forall (fun n => (depth n <= S k)%nat) q ->
  Forall (fun n => (depth n <= k)%nat) (children q).
Proof.
  induction 1 as [|n q Hn _ IH]; [constructor |].
  unfold children in *. cbn [flat_map]. apply Forall_app. split; [| exact IH].
  destruct n as [|x l r h]; [constructor |].
  cbn [depth] in Hn. repeat constructor; lia.
Qed.

Lemma bfs_loop_levels (k : nat) :
  forall q,
    Forall (fun n => (depth n <= k)%nat) q ->
    AVLTree._bfs_loop q =
    flat_map (fun d => flat_map (level d) q) (seq 0 k).
Proof.
  induction k as [|k IH]; intros q Hq.
  - cbn [seq flat_map]. induction Hq as [|n q Hn _ IHq]; [reflexivity |].
    destruct n as [|x l r h]; [| cbn [depth] in Hn; lia].
    simp _bfs_loop.
  - rewrite <- (app_nil_r q) at 1. rewrite bfs_loop_round. cbn [app].
    rewrite (IH _ (children_depth q k Hq)).
    cbn [seq flat_map]. f_equal.
    rewrite <- seq_shift. generalize (seq 0 k) as ds.
    induction ds as [|d ds IHds]; [reflexivity |].
    cbn [map flat_map]. rewrite IHds, level_children. reflexivity.
Qed.

(** X16.  The breadth-first traversal yields the tree level by level:
    the root, then the entries at depth 1 from left to right, then those
    at depth 2, and so on. *)
Theorem bfs_goes_level_by_level (t : AVLTree.t) :
  AVLTree.traverse t "bfs" =
  flat_map (fun d => level d (AVLTree.root t)) (seq 0 (depth (AVLTree.root t))).
Proof.
  change (AVLTree.traverse t "bfs") with (AVLTree._bfs t).
  unfold AVLTree._bfs. destruct (AVLTree.root t) as [|x l r h] eqn:E.
  - reflexivity.
  - cbn [Node.__bool__].
    rewrite (bfs_loop_levels (depth (AVLNode x l r h)));
      [| repeat constructor].
    apply flat_map_ext. intros d. cbn [flat_map]. apply app_nil_r.
Qed.

(** ** Copying a tree by its breadth-first order *)

















(** ** Further compositions *)



(** X19.  On every tree, built or not, [e in tree] returns a boolean and
    never raises; [search(e)] raises nothing but [KeyError], and what it
    returns is [e]. *)
Theorem contains_never_raises (t : AVLTree.t) (e : Z) :
  (AVLTree.__contains__ t e = Ok true /\ AVLTree.search t e = Ok e) \/
  (AVLTree.__contains__ t e = Ok false /\ AVLTree.search t e = Raise KeyError).
Proof.
  unfold AVLTree.__contains__, AVLTree.search, AVLTree._search.
  destruct (search_loop_cases (AVLTree.root t) e) as [(l & r & h & ->) | ->].
  - left. split; reflexivity.
  - right. split; reflexivity.
Qed.

(** X20.  A [clear()] that raises has raised [AttributeError]; it may
    have dropped entries, but it has added none and has kept the order
    of those that are left. *)
Theorem raising_clear_keeps_order (t : AVLTree.t) (ex : exn) (t' : AVLTree.t) :
  AVLTree.clear t = (Raise ex, t') ->
  ex = AttributeError /\
  (forall y, In y (AVLTree.traverse t' "inorder") ->
             In y (AVLTree.traverse t "inorder")) /\
  (StronglySorted Z.lt (AVLTree.traverse t "inorder") ->
   StronglySorted Z.lt (AVLTree.traverse t' "inorder")).
Proof.
  rewrite !traverse_inorder. unfold AVLTree.clear.
  destruct (Node.clear (AVLTree.root t)) as [v | ex' n'] eqn:Hc;
    cbn [AVLTree.assign_root]; [discriminate |].
  intros [= -> <-]. cbn [AVLTree.root].
  revert ex n' Hc. generalize (AVLTree.root t) as n. clear t.
  induction n as [|x l IHl r IHr h]; intros ex n'; cbn [Node.clear].
  - intros [= <- <-]. repeat split; auto.
  - destruct (Node.is_leaf l r); [discriminate |].
    destruct (Node.clear l) as [lv | exl l'] eqn:Hl.
    + apply clear_returns_empty in Hl. subst lv.
      destruct (Node.clear r) as [rv | exr r'] eqn:Hr; [discriminate |].
      intros [= <- <-]. destruct (IHr _ _ eq_refl) as (-> & Hsub & Hsort).
      split; [reflexivity |]. cbn [AVLTree._inorder app]. split.
      * intros y [<- | Hy]; apply in_or_app; right;
          [left; reflexivity | right; apply Hsub, Hy].
      * intros Hs. apply sorted_app_cons in Hs.
        destruct Hs as (_ & Sr & _ & Fr).
        constructor; [apply Hsort, Sr |].
        rewrite Forall_forall in *. intros y Hy. apply Fr, Hsub, Hy.
    + intros [= <- <-]. destruct (IHl _ _ eq_refl) as (-> & Hsub & Hsort).
      split; [reflexivity |]. cbn [AVLTree._inorder]. split.
      * intros y Hy. apply in_app_or in Hy. apply in_or_app.
        destruct Hy as [Hy | Hy]; [left; apply Hsub, Hy | right; exact Hy].
      * intros Hs. apply sorted_app_cons in Hs.
        destruct Hs as (Sl & Sr & Fl & Fr).
        apply sorted_app_cons. repeat split; auto.
        rewrite Forall_forall in *. intros y Hy. apply Fl, Hsub, Hy.
Qed.

Lemma raising_clear_keeps_order_witness :
  AVLTree.clear tree_2_1 =
    (Raise AttributeError, AVLTree.mk (AVLNode 2 EMPTY_NODE EMPTY_NODE 2)) /\
  (forall y, In y (AVLTree.traverse
                     (AVLTree.mk (AVLNode 2 EMPTY_NODE EMPTY_NODE 2)) "inorder") ->
             In y (AVLTree.traverse tree_2_1 "inorder")).
Proof.
  split; [reflexivity |].
  exact (proj1 (proj2 (raising_clear_keeps_order tree_2_1 AttributeError
                         (AVLTree.mk (AVLNode 2 EMPTY_NODE EMPTY_NODE 2))
                         eq_refl))).
Defined.
